(** * Mergington High School activities service

    A shallow embedding of [src/database.py] (the two tables, the session and
    the seeding routine) and of [src/app.py] (the three request handlers),
    followed by the properties of the specification.

    The two tables are lists of rows kept in rowid order.  A session is a pair
    of stores: what is committed and what the open transaction sees.  Handlers
    are written in a small state-and-exception monad over sessions, one
    primitive per SQLAlchemy call used by the source. *)

From stdpp Require Import base list strings gmap.

Local Open Scope string_scope.
Local Open Scope Z_scope.
Local Open Scope list_scope.

(** ** Tables ([database.py], lines 26-56) *)

(** What [Activity.to_dict] returns: the JSON object of one activity. *)
Record ActivityDict := mkActivityDict {
  d_description : string;
  d_schedule : string;
  d_max_participants : Z;
  d_participants : list string
}.

Module Activity.
Record t := mk {
  id : Z;
  name : string;
  description : string;
  schedule : string;
  max_participants : Z
}.

(** [to_dict(self, participants=None)] *)
Definition to_dict (self : t) (participants : option (list string)) : ActivityDict :=
  let participants := match participants with
                      | None => []
                      | Some l => l
                      end in
  {| d_description := description self;
     d_schedule := schedule self;
     d_max_participants := max_participants self;
     d_participants := participants |}.
End Activity.

Module Participant.
Record t := mk {
  id : Z;
  activity_id : Z;
  email : string
}.
End Participant.

Global Instance Activity_eq_dec : EqDecision Activity.t.
Proof. solve_decision. Defined.

Global Instance Participant_eq_dec : EqDecision Participant.t.
Proof. solve_decision. Defined.

Global Instance ActivityDict_eq_dec : EqDecision ActivityDict.
Proof. solve_decision. Defined.

(** The persisted state: the [activities] and [participants] tables.  The
    association table [activity_participants] is never read or written. *)
Record Store := mkStore {
  activities : list Activity.t;
  participants : list Participant.t
}.

Definition empty_store : Store := {| activities := []; participants := [] |}.

(** What the schema itself enforces: both primary keys and the [unique=True]
    column [Activity.name].  Nothing in the schema constrains the pair
    (activity_id, email). *)
Record schema_ok (s : Store) : Prop := {
  activity_pk : NoDup (Activity.id <$> activities s);
  activity_name_unique : NoDup (Activity.name <$> activities s);
  participant_pk : NoDup (Participant.id <$> participants s)
}.

(** The key an INSERT gives a row of an integer primary key column: 1 in an
    empty table, otherwise one more than the largest key in use.  SQLite does
    so while the largest key is below 2^63-1; at that key it picks an unused
    key at random, which this function does not follow: there the key of the
    new row and its place in the table differ. *)
Definition next_rowid (ids : list Z) : Z :=
  match ids with
  | [] => 1
  | i :: rest => foldr Z.max i rest + 1
  end.

(** ** Queries *)

(** [db.query(Activity).filter(Activity.name == n).first()] *)
Definition activity_by_name (s : Store) (n : string) : option Activity.t :=
  head (filter (λ a, Activity.name a = n) (activities s)).

(** [db.query(Participant).filter(Participant.activity_id == aid)] *)
Definition participants_of (s : Store) (aid : Z) : list Participant.t :=
  filter (λ p, Participant.activity_id p = aid) (participants s).

(** [db.query(Participant).filter(Participant.activity_id == aid,
    Participant.email == e)]: the rows of one (activity, email) pair. *)
Definition rows_of (s : Store) (aid : Z) (e : string) : list Participant.t :=
  filter (λ p, Participant.activity_id p = aid ∧ Participant.email p = e)
         (participants s).

(** The same query with [.first()]. *)
Definition participant_of (s : Store) (aid : Z) (e : string)
  : option Participant.t :=
  head (rows_of s aid e).

(** [[p.email for p in db.query(Participant.email).filter(...).all()]] *)
Definition participant_emails (s : Store) (aid : Z) : list string :=
  Participant.email <$> participants_of s aid.

(** ** Sessions *)

Inductive exn :=
| HTTPException (status_code : Z) (detail : string)
| IntegrityError.

Record Session := mkSession {
  committed : Store;   (* what other sessions and later requests see *)
  current : Store      (* what this transaction sees *)
}.

Definition Db (A : Type) : Type := Session → (exn + A) * Session.

Definition ret {A} (a : A) : Db A := λ ss, (inr a, ss).

Definition bind {A B} (m : Db A) (k : A → Db B) : Db B :=
  λ ss, match m ss with
        | (inr a, ss') => k a ss'
        | (inl e, ss') => (inl e, ss')
        end.

Definition raise {A} (e : exn) : Db A := λ ss, (inl e, ss).

Notation "x ←← m ; k" := (bind m (λ x, k))
  (at level 100, m at next level, right associativity,
   format "'[v' x  ←←  m ;  '/' k ']'").
Notation "m ;;; k" := (bind m (λ _, k))
  (at level 100, right associativity).

(** Run a query against the transaction's view. *)
Definition query {A} (q : Store → A) : Db A := λ ss, (inr (q (current ss)), ss).

(** [db.add(Participant(activity_id=aid, email=e))].  The row is written when
    the session is flushed; no handler queries between the add and the
    commit, so the insert is applied to the view at once. *)
Definition db_add_participant (aid : Z) (e : string) : Db unit :=
  λ ss,
    let s := current ss in
    let p := Participant.mk (next_rowid (Participant.id <$> participants s)) aid e in
    (inr (), {| committed := committed ss;
                current := {| activities := activities s;
                              participants := participants s ++ [p] |} |}).

(** [db.add(Activity(...)); db.flush()]: the INSERT is rejected when the
    name is taken ([unique=True]); otherwise the row gets its key. *)
Definition db_add_activity (n d sch : string) (m : Z) : Db Activity.t :=
  λ ss,
    let s := current ss in
    if decide (n ∈ Activity.name <$> activities s) then (inl IntegrityError, ss)
    else
      let a := Activity.mk (next_rowid (Activity.id <$> activities s)) n d sch m in
      (inr a, {| committed := committed ss;
                 current := {| activities := activities s ++ [a];
                               participants := participants s |} |}).

(** [db.delete(p)]: DELETE ... WHERE participants.id = p.id *)
Definition db_delete (p : Participant.t) : Db unit :=
  λ ss,
    let s := current ss in
    (inr (), {| committed := committed ss;
                current := {| activities := activities s;
                              participants :=
                                filter (λ q, Participant.id q ≠ Participant.id p)
                                       (participants s) |} |}).

Definition db_commit : Db unit :=
  λ ss, (inr (), {| committed := current ss; current := current ss |}).

Definition db_rollback : Db unit :=
  λ ss, (inr (), {| committed := committed ss; current := committed ss |}).

(** [try: body except Exception: db.rollback(); raise] *)
Definition rollback_on_error {A} (body : Db A) : Db A :=
  λ ss, match body ss with
        | (inr a, ss') => (inr a, ss')
        | (inl e, ss') => (inl e, snd (db_rollback ss'))
        end.

(** A session opened on a store, used, and closed: what stays is what was
    committed ([get_db], and the [SessionLocal()] ... [db.close()] of the
    seeding routine). *)
Definition with_session {A} (body : Db A) (s : Store) : (exn + A) * Store :=
  let '(r, ss) := body {| committed := s; current := s |} in (r, committed ss).

Fixpoint for_each {A} (l : list A) (body : A → Db unit) : Db unit :=
  match l with
  | [] => ret ()
  | x :: rest => body x ;;; for_each rest body
  end.

(** ** Seeding ([database.py], lines 73-173) *)

Record ActivityData := mkActivityData {
  ad_name : string;
  ad_description : string;
  ad_schedule : string;
  ad_max_participants : Z;
  ad_participants : list string
}.

Definition activities_data : list ActivityData := [
  mkActivityData "Chess Club"
    "Learn strategies and compete in chess tournaments"
    "Fridays, 3:30 PM - 5:00 PM" 12
    ["michael@mergington.edu"; "daniel@mergington.edu"];
  mkActivityData "Programming Class"
    "Learn programming fundamentals and build software projects"
    "Tuesdays and Thursdays, 3:30 PM - 4:30 PM" 20
    ["emma@mergington.edu"; "sophia@mergington.edu"];
  mkActivityData "Gym Class"
    "Physical education and sports activities"
    "Mondays, Wednesdays, Fridays, 2:00 PM - 3:00 PM" 30
    ["john@mergington.edu"; "olivia@mergington.edu"];
  mkActivityData "Soccer Team"
    "Join the school soccer team and compete in matches"
    "Tuesdays and Thursdays, 4:00 PM - 5:30 PM" 22
    ["liam@mergington.edu"; "noah@mergington.edu"];
  mkActivityData "Basketball Team"
    "Practice and play basketball with the school team"
    "Wednesdays and Fridays, 3:30 PM - 5:00 PM" 15
    ["ava@mergington.edu"; "mia@mergington.edu"];
  mkActivityData "Art Club"
    "Explore your creativity through painting and drawing"
    "Thursdays, 3:30 PM - 5:00 PM" 15
    ["amelia@mergington.edu"; "harper@mergington.edu"];
  mkActivityData "Drama Club"
    "Act, direct, and produce plays and performances"
    "Mondays and Wednesdays, 4:00 PM - 5:30 PM" 20
    ["ella@mergington.edu"; "scarlett@mergington.edu"];
  mkActivityData "Math Club"
    "Solve challenging problems and participate in math competitions"
    "Tuesdays, 3:30 PM - 4:30 PM" 10
    ["james@mergington.edu"; "benjamin@mergington.edu"];
  mkActivityData "Debate Team"
    "Develop public speaking and argumentation skills"
    "Fridays, 4:00 PM - 5:30 PM" 12
    ["charlotte@mergington.edu"; "henry@mergington.edu"]
].

Definition seed_body : Db unit :=
  existing_activities ←← query (λ s, length (activities s));
  if decide (0 < Z.of_nat existing_activities) then ret ()
  else
    for_each activities_data (λ activity_data,
      activity ←← db_add_activity (ad_name activity_data)
                                  (ad_description activity_data)
                                  (ad_schedule activity_data)
                                  (ad_max_participants activity_data);
      for_each (ad_participants activity_data) (λ email,
        db_add_participant (Activity.id activity) email)) ;;;
    db_commit.

Definition seed_initial_data (s : Store) : (exn + unit) * Store :=
  with_session (rollback_on_error seed_body) s.

(** The state the service starts from on a fresh database. *)
Definition seeded : Store := snd (seed_initial_data empty_store).

(** ** Request handlers ([app.py]) *)

(** The loop of [get_activities]: one query per activity, one assignment
    [result[activity.name] = ...] per activity. *)
Fixpoint get_activities_loop (acts : list Activity.t)
    (result : gmap string ActivityDict) : Db (gmap string ActivityDict) :=
  match acts with
  | [] => ret result
  | activity :: rest =>
      participant_emails ←← query (λ s, participant_emails s (Activity.id activity));
      get_activities_loop rest
        (<[Activity.name activity := Activity.to_dict activity (Some participant_emails)]> result)
  end.

Definition get_activities_body : Db (gmap string ActivityDict) :=
  acts ←← query activities;
  get_activities_loop acts ∅.

Definition signup_body (activity_name email : string) : Db string :=
  found ←← query (λ s, activity_by_name s activity_name);
  match found with
  | None => raise (HTTPException 404 "Activity not found")
  | Some activity =>
      existing_participant ←←
        query (λ s, participant_of s (Activity.id activity) email);
      match existing_participant with
      | Some _ => raise (HTTPException 400 "Student is already signed up")
      | None =>
          current_count ←←
            query (λ s, length (participants_of s (Activity.id activity)));
          if decide (Activity.max_participants activity ≤ Z.of_nat current_count)
          then raise (HTTPException 400 "Activity is full")
          else
            db_add_participant (Activity.id activity) email ;;;
            db_commit ;;;
            ret ("Signed up " +:+ email +:+ " for " +:+ activity_name)
      end
  end.

Definition unregister_body (activity_name email : string) : Db string :=
  found ←← query (λ s, activity_by_name s activity_name);
  match found with
  | None => raise (HTTPException 404 "Activity not found")
  | Some activity =>
      participant ←←
        query (λ s, participant_of s (Activity.id activity) email);
      match participant with
      | None =>
          raise (HTTPException 400 "Student is not signed up for this activity")
      | Some p =>
          db_delete p ;;;
          db_commit ;;;
          ret ("Unregistered " +:+ email +:+ " from " +:+ activity_name)
      end
  end.

(** The handlers as FastAPI runs them: [db] comes from [get_db]. *)
Definition get_activities (s : Store) : (exn + gmap string ActivityDict) * Store :=
  with_session get_activities_body s.

Definition signup_for_activity (activity_name email : string) (s : Store)
  : (exn + string) * Store :=
  with_session (signup_body activity_name email) s.

Definition unregister_from_activity (activity_name email : string) (s : Store)
  : (exn + string) * Store :=
  with_session (unregister_body activity_name email) s.

(** ** Sequences of requests *)

Inductive request :=
| GetActivities
| SignUp (activity_name email : string)
| Unregister (activity_name email : string).

(** The store after one request; the response is dropped. *)
Definition step (s : Store) (r : request) : Store :=
  match r with
  | GetActivities => snd (get_activities s)
  | SignUp n e => snd (signup_for_activity n e s)
  | Unregister n e => snd (unregister_from_activity n e s)
  end.

Definition run (s : Store) (rs : list request) : Store := foldl step s rs.

(** ** Properties of a store *)

(** No activity has more participant rows than its capacity. *)
Definition within_capacity (s : Store) : Prop :=
  ∀ a, a ∈ activities s →
    Z.of_nat (length (participants_of s (Activity.id a))) ≤ Activity.max_participants a.

(** No (activity, email) pair has two rows. *)
Definition pairs_unique (s : Store) : Prop :=
  ∀ aid e, (length (rows_of s aid e) ≤ 1)%nat.

(** The pair a participant row stands for. *)
Definition pair_key (p : Participant.t) : Z * string :=
  (Participant.activity_id p, Participant.email p).


(** The row a signup of [email] for activity [aid] writes. *)
Definition new_row (s : Store) (email : string) (aid : Z) : Participant.t :=
  Participant.mk (next_rowid (Participant.id <$> participants s)) aid email.

(** The dictionary the loop of [get_activities] builds, as a fold. *)
Definition activities_dict (s : Store) (acts : list Activity.t)
    (result : gmap string ActivityDict) : gmap string ActivityDict :=
  foldl (λ m a, <[Activity.name a :=
                    Activity.to_dict a (Some (participant_emails s (Activity.id a)))]> m)
        result acts.

(** A store in which the pair (Chess Club, michael@mergington.edu) has two
    rows: the seeded one and a second one with its own key.  The schema
    allows it; two signups racing each other leave it behind. *)
Definition doubled : Store :=
  {| activities := activities seeded;
     participants := participants seeded
                     ++ [Participant.mk 19 1 "michael@mergington.edu"] |}.

(** ** Startup ([database.py], lines 68-70; [app.py], lines 22-25) *)

(** A database file: each of the two tables is there or not yet created. *)
Record Database := mkDatabase {
  activities_table : option (list Activity.t);
  participants_table : option (list Participant.t)
}.

(** [Base.metadata.create_all(bind=engine)]: a missing table is created
    empty, a table that exists is left as it is.  The result is the store the
    sessions opened afterwards work on. *)
Definition init_db (db : Database) : Store :=
  {| activities := default [] (activities_table db);
     participants := default [] (participants_table db) |}.

(** The database file a store is kept in. *)
Definition database_of (s : Store) : Database :=
  {| activities_table := Some (activities s);
     participants_table := Some (participants s) |}.

(** [startup_event()]: [init_db()] then [seed_initial_data()]. *)
Definition startup_event (db : Database) : (exn + unit) * Store :=
  seed_initial_data (init_db db).

(** Every participant row references an activity that exists. *)
Definition references_ok (s : Store) : Prop :=
  ∀ p, p ∈ participants s →
    ∃ a, a ∈ activities s ∧ Activity.id a = Participant.activity_id p.

(** * Proofs *)

(** ** The handlers as case analyses on the store *)

Section handler_equations.
Context (s : Store) (activity_name email : string).

Lemma signup_for_activity_eq :
  signup_for_activity activity_name email s =
  match activity_by_name s activity_name with
  | None => (inl (HTTPException 404 "Activity not found"), s)
  | Some a =>
      match participant_of s (Activity.id a) email with
      | Some _ => (inl (HTTPException 400 "Student is already signed up"), s)
      | None =>
          if decide (Activity.max_participants a
                     ≤ Z.of_nat (length (participants_of s (Activity.id a))))
          then (inl (HTTPException 400 "Activity is full"), s)
          else (inr ("Signed up " +:+ email +:+ " for " +:+ activity_name),
                {| activities := activities s;
                   participants := participants s ++ [new_row s email (Activity.id a)] |})
      end
  end.
Proof.
  cbv beta iota zeta delta [signup_for_activity with_session signup_body bind query
    raise ret db_add_participant db_commit current committed new_row].
  destruct (activity_by_name s activity_name) as [a|]; [|done].
  destruct (participant_of s (Activity.id a) email); [done|].
  by case_decide.
Qed.

Lemma unregister_from_activity_eq :
  unregister_from_activity activity_name email s =
  match activity_by_name s activity_name with
  | None => (inl (HTTPException 404 "Activity not found"), s)
  | Some a =>
      match participant_of s (Activity.id a) email with
      | None =>
          (inl (HTTPException 400 "Student is not signed up for this activity"), s)
      | Some p =>
          (inr ("Unregistered " +:+ email +:+ " from " +:+ activity_name),
           {| activities := activities s;
              participants := filter (λ q, Participant.id q ≠ Participant.id p)
                                     (participants s) |})
      end
  end.
Proof.
  cbv beta iota zeta delta [unregister_from_activity with_session unregister_body bind
    query raise ret db_delete db_commit current committed].
  destruct (activity_by_name s activity_name) as [a|]; [|done].
  by destruct (participant_of s (Activity.id a) email).
Qed.
End handler_equations.

Lemma get_activities_loop_eq acts result ss :
  get_activities_loop acts result ss
  = (inr (activities_dict (current ss) acts result), ss).
Proof.
  revert result. induction acts as [|a acts IH]; intros result; [done|].
  simpl. unfold bind, query. simpl. apply IH.
Qed.

Lemma get_activities_eq s :
  get_activities s = (inr (activities_dict s (activities s) ∅), s).
Proof.
  unfold get_activities, with_session, get_activities_body, bind, query; simpl.
  by rewrite get_activities_loop_eq.
Qed.

(** ** Row keys *)

Lemma foldr_max_ge (i : Z) (l : list Z) :
  i ≤ foldr Z.max i l ∧ ∀ x, x ∈ l → x ≤ foldr Z.max i l.
Proof.
  induction l as [|y l [IHi IHl]]; simpl.
  - split; [lia|]. intros x Hx. by apply elem_of_nil in Hx.
  - split; [lia|]. intros x [->|Hx]%elem_of_cons; [lia|].
    specialize (IHl x Hx). lia.
Qed.

Lemma next_rowid_fresh (ids : list Z) (x : Z) : x ∈ ids → x < next_rowid ids.
Proof.
  destruct ids as [|i rest]; [by intros ?%elem_of_nil|].
  unfold next_rowid. destruct (foldr_max_ge i rest) as [Hi Hrest].
  intros [->|Hx]%elem_of_cons; [lia|]. specialize (Hrest x Hx). lia.
Qed.

Lemma next_rowid_not_in (ids : list Z) : next_rowid ids ∉ ids.
Proof. intros H%next_rowid_fresh. lia. Qed.

(** Deleting the row with the key of the next insert deletes nothing. *)
Lemma filter_next_rowid (ps : list Participant.t) :
  filter (λ q, Participant.id q ≠ next_rowid (Participant.id <$> ps)) ps = ps.
Proof.
  assert (∀ k, (∀ q, q ∈ ps → Participant.id q ≠ k) →
               filter (λ q, Participant.id q ≠ k) ps = ps) as Hgen.
  { intros k. induction ps as [|p ps IH]; intros Hk; [done|].
    rewrite filter_cons_True by (apply Hk; left).
    f_equal. apply IH. intros q Hq. apply Hk. by right. }
  apply Hgen. intros q Hq Heq.
  apply (next_rowid_not_in (Participant.id <$> ps)).
  rewrite <- Heq. by apply list_elem_of_fmap_2.
Qed.

Lemma NoDup_fmap_eq {A B} (f : A → B) (l : list A) (a b : A) :
  NoDup (f <$> l) → a ∈ l → b ∈ l → f a = f b → a = b.
Proof.
  induction l as [|x l IH]; [by intros _ ?%elem_of_nil|].
  rewrite fmap_cons, NoDup_cons. intros [Hx Hl] Ha Hb Hab.
  apply elem_of_cons in Ha as [->|Ha]; apply elem_of_cons in Hb as [->|Hb];
    [done| | |by apply IH].
  - destruct Hx. rewrite Hab. by apply list_elem_of_fmap_2.
  - destruct Hx. rewrite <- Hab. by apply list_elem_of_fmap_2.
Qed.

(** ** The queries *)

Lemma activity_by_name_Some s n a :
  activity_by_name s n = Some a → a ∈ activities s ∧ Activity.name a = n.
Proof.
  unfold activity_by_name. intros H%head_Some_elem_of.
  apply list_elem_of_filter in H. tauto.
Qed.

Lemma activity_by_name_None s n :
  activity_by_name s n = None ↔ ∀ a, a ∈ activities s → Activity.name a ≠ n.
Proof.
  unfold activity_by_name. rewrite head_None. split.
  - intros H a Ha Hn. exact (filter_nil_not_elem_of _ _ a H Hn Ha).
  - intros H. induction (activities s) as [|a l IH]; [done|].
    rewrite filter_cons_False by (apply H; left).
    apply IH. intros b Hb. apply H. by right.
Qed.

(** With unique names the query returns the activity of that name. *)
Lemma activity_by_name_unique s a :
  NoDup (Activity.name <$> activities s) → a ∈ activities s →
  activity_by_name s (Activity.name a) = Some a.
Proof.
  intros Hnd Ha.
  destruct (activity_by_name s (Activity.name a)) as [b|] eqn:Hb.
  - apply activity_by_name_Some in Hb as [Hb Hn].
    f_equal. by apply (NoDup_fmap_eq Activity.name (activities s)).
  - rewrite activity_by_name_None in Hb. by destruct (Hb a Ha).
Qed.

Lemma participant_of_Some s aid e p :
  participant_of s aid e = Some p →
  p ∈ participants s ∧ Participant.activity_id p = aid ∧ Participant.email p = e.
Proof.
  unfold participant_of, rows_of. intros H%head_Some_elem_of.
  apply list_elem_of_filter in H. tauto.
Qed.

Lemma participant_of_None s aid e :
  participant_of s aid e = None ↔
  ¬ ∃ p, p ∈ participants s ∧ Participant.activity_id p = aid ∧ Participant.email p = e.
Proof.
  unfold participant_of. rewrite head_None. split.
  - intros H (p & Hp & Ha & He).
    exact (filter_nil_not_elem_of _ _ p H (conj Ha He) Hp).
  - intros H. destruct (rows_of s aid e) as [|p l] eqn:Hrows; [done|].
    destruct H. exists p.
    assert (p ∈ rows_of s aid e) as Hin by (rewrite Hrows; left).
    apply list_elem_of_filter in Hin. tauto.
Qed.

Lemma participant_of_is_Some s aid e :
  (∃ p, p ∈ participants s ∧ Participant.activity_id p = aid ∧ Participant.email p = e) →
  is_Some (participant_of s aid e).
Proof.
  intros H. destruct (participant_of s aid e) eqn:Hq; [done|].
  by apply participant_of_None in Hq.
Qed.

(** The query returns the first activity of that name in the table. *)
Lemma activity_by_name_first s n before a after :
  activities s = before ++ a :: after →
  Activity.name a = n →
  (∀ b, b ∈ before → Activity.name b ≠ n) →
  activity_by_name s n = Some a.
Proof.
  intros Hsplit Hname Hbefore. unfold activity_by_name.
  rewrite Hsplit, filter_app, filter_cons_True by done.
  assert (filter (λ b, Activity.name b = n) before = []) as ->; [|done].
  clear Hsplit. induction before as [|b before IH]; [done|].
  rewrite filter_cons_False by exact (Hbefore b ltac:(left)).
  apply IH. intros c Hc. apply Hbefore. by right.
Qed.

Lemma store_eta (s : Store) :
  {| activities := activities s; participants := participants s |} = s.
Proof. by destruct s. Qed.

(** ** Deleting rows *)

(** What [db.delete] removes when keys are unique: the row found, and no
    other. *)
Lemma delete_by_key (ps : list Participant.t) (p : Participant.t) :
  NoDup (Participant.id <$> ps) → p ∈ ps →
  ∀ q, q ∈ filter (λ q, Participant.id q ≠ Participant.id p) ps ↔ q ∈ ps ∧ q ≠ p.
Proof.
  intros Hnd Hp q. rewrite list_elem_of_filter. split.
  - intros [Hne Hq]. split; [done|]. congruence.
  - intros [Hq Hne]. split; [|done]. intros Heq. destruct Hne.
    by apply (NoDup_fmap_eq Participant.id ps).
Qed.

Lemma filter_swap {A} (P Q : A → Prop)
    `{!∀ x, Decision (P x), !∀ x, Decision (Q x)} (l : list A) :
  filter P (filter Q l) = filter Q (filter P l).
Proof. rewrite !list_filter_filter. apply list_filter_iff. tauto. Qed.

(** A pair with at most one row has none once [unregister] has deleted the
    row it found. *)
Lemma rows_of_after_delete s aid e p :
  (length (rows_of s aid e) ≤ 1)%nat →
  participant_of s aid e = Some p →
  rows_of {| activities := activities s;
             participants := filter (λ q, Participant.id q ≠ Participant.id p)
                                    (participants s) |} aid e = [].
Proof.
  unfold participant_of, rows_of; cbn [participants]. intros Hlen Hhead.
  rewrite filter_swap.
  destruct (filter _ (participants s)) as [|p' rest]; [done|].
  injection Hhead as ->. destruct rest; [|simpl in Hlen; lia].
  by rewrite filter_cons_False, filter_nil by (intros H; by apply H).
Qed.

(** ** Activities are never touched *)

Lemma step_activities s r : activities (step s r) = activities s.
Proof.
  destruct r as [|n e|n e]; unfold step.
  - by rewrite get_activities_eq.
  - rewrite signup_for_activity_eq.
    destruct (activity_by_name s n) as [a|]; [|done].
    destruct (participant_of s (Activity.id a) e); [done|]. by case_decide.
  - rewrite unregister_from_activity_eq.
    destruct (activity_by_name s n) as [a|]; [|done].
    by destruct (participant_of s (Activity.id a) e).
Qed.

Lemma run_activities rs : ∀ s, activities (run s rs) = activities s.
Proof.
  induction rs as [|r rs IH]; intros s; [done|].
  unfold run in *. cbn [foldl]. by rewrite IH, step_activities.
Qed.

(** ** Invariants of the reachable states *)

Section invariants.
Implicit Types (s : Store) (r : request) (rs : list request).

(** Rows surviving a delete are rows that were there. *)
Lemma length_filter_delete (P : Participant.t → Prop) `{!∀ p, Decision (P p)}
    (k : Z) (ps : list Participant.t) :
  (length (filter P (filter (λ q, Participant.id q ≠ k) ps))
   ≤ length (filter P ps))%nat.
Proof. rewrite filter_swap. apply length_filter. Qed.

Lemma step_within_capacity s r :
  NoDup (Activity.id <$> activities s) →
  within_capacity s → within_capacity (step s r).
Proof.
  intros Hpk Hcap. destruct r as [|n e|n e]; unfold step.
  - by rewrite get_activities_eq.
  - rewrite signup_for_activity_eq.
    destruct (activity_by_name s n) as [a|] eqn:Ha; [|done].
    destruct (participant_of s (Activity.id a) e); [done|].
    case_decide as Hroom; [done|]. cbn [snd].
    apply activity_by_name_Some in Ha as [Ha _].
    intros b Hb. cbn [activities] in Hb.
    unfold participants_of. cbn [participants].
    rewrite filter_app, length_app. specialize (Hcap b Hb).
    unfold participants_of in Hcap, Hroom.
    destruct (decide (Activity.id a = Activity.id b)) as [Heq|Hne].
    + assert (a = b) as <- by by apply (NoDup_fmap_eq Activity.id (activities s)).
      rewrite filter_cons_True, filter_nil by done. cbn [length]. lia.
    + rewrite filter_cons_False, filter_nil by done. cbn [length]. lia.
  - rewrite unregister_from_activity_eq.
    destruct (activity_by_name s n) as [a|]; [|done].
    destruct (participant_of s (Activity.id a) e) as [p|]; [|done]. cbn [snd].
    intros b Hb. cbn [activities] in Hb. specialize (Hcap b Hb).
    unfold participants_of in *. cbn [participants].
    pose proof (length_filter_delete
                  (λ q, Participant.activity_id q = Activity.id b)
                  (Participant.id p) (participants s)).
    lia.
Qed.

Lemma step_pairs_unique s r : pairs_unique s → pairs_unique (step s r).
Proof.
  intros Huniq. destruct r as [|n e|n e]; unfold step.
  - by rewrite get_activities_eq.
  - rewrite signup_for_activity_eq.
    destruct (activity_by_name s n) as [a|]; [|done].
    destruct (participant_of s (Activity.id a) e) eqn:Hfree; [done|].
    case_decide; [done|]. cbn [snd].
    intros aid e'. specialize (Huniq aid e').
    unfold participant_of in Hfree. apply head_None in Hfree.
    unfold rows_of in *. cbn [participants].
    rewrite filter_app, length_app.
    destruct (decide (Activity.id a = aid ∧ e = e')) as [[<- <-]|Hne].
    + rewrite Hfree, filter_cons_True, filter_nil by done. cbn [length]. lia.
    + rewrite filter_cons_False, filter_nil by done. cbn [length]. lia.
  - rewrite unregister_from_activity_eq.
    destruct (activity_by_name s n) as [a|]; [|done].
    destruct (participant_of s (Activity.id a) e) as [p|]; [|done]. cbn [snd].
    intros aid e'. specialize (Huniq aid e').
    unfold rows_of in *. cbn [participants].
    pose proof (length_filter_delete
                  (λ q, Participant.activity_id q = aid ∧ Participant.email q = e')
                  (Participant.id p) (participants s)).
    lia.
Qed.

(** A table without repeated pairs has at most one row per pair. *)
Lemma NoDup_pairs_unique s :
  NoDup (pair_key <$> participants s) → pairs_unique s.
Proof.
  intros Hnd aid e. unfold rows_of.
  induction (participants s) as [|p ps IH]; [simpl; lia|].
  rewrite fmap_cons, NoDup_cons in Hnd. destruct Hnd as [Hp Hps].
  specialize (IH Hps). rewrite filter_cons.
  case_decide as Hkey; [|done]. cbn [length].
  destruct (filter _ ps) as [|q qs] eqn:Hq; [simpl; lia|].
  assert (q ∈ filter (λ p, Participant.activity_id p = aid
                           ∧ Participant.email p = e) ps) as Hin
    by (rewrite Hq; left).
  apply list_elem_of_filter in Hin as [[Hqa Hqe] Hin].
  destruct Hp. apply list_elem_of_fmap. exists q. split; [|done].
  unfold pair_key. destruct Hkey. congruence.
Qed.

Lemma seeded_activity_pk : NoDup (Activity.id <$> activities seeded).
Proof. apply (bool_decide_unpack _). vm_compute. exact I. Qed.

Lemma seeded_within_capacity : within_capacity seeded.
Proof.
  intros a Ha. revert a Ha. apply Forall_forall.
  apply (bool_decide_unpack _). vm_compute. exact I.
Qed.

Lemma seeded_pairs_unique : pairs_unique seeded.
Proof.
  apply NoDup_pairs_unique. apply (bool_decide_unpack _). vm_compute. exact I.
Qed.

Lemma run_within_capacity rs : ∀ s,
  NoDup (Activity.id <$> activities s) →
  within_capacity s → within_capacity (run s rs).
Proof.
  induction rs as [|r rs IH]; intros s Hpk Hcap; [done|].
  unfold run in *. cbn [foldl]. apply IH.
  - by rewrite step_activities.
  - by apply step_within_capacity.
Qed.

Lemma run_pairs_unique rs : ∀ s, pairs_unique s → pairs_unique (run s rs).
Proof.
  induction rs as [|r rs IH]; intros s Huniq; [done|].
  unfold run in *. cbn [foldl]. by apply IH, step_pairs_unique.
Qed.
End invariants.

(** ** Sign up *)

(** C3: signup checks, in this order, that the activity exists (else 404
    "Activity not found"), that the student has no row for it (else 400
    "Student is already signed up") and that the activity has room (else 400
    "Activity is full"); only then does it insert the row.  A student already
    signed up for a full activity gets the "already signed up" error.  The
    activity is the first row of the activities table with the name asked
    for, a row for the student is a participant row with that activity's key
    and the email, and the count is the number of participant rows with that
    activity's key. *)
Theorem signup_checks_in_order (s : Store) (activity_name email : string) :
  ((∀ a, a ∈ activities s → Activity.name a ≠ activity_name) →
     signup_for_activity activity_name email s
     = (inl (HTTPException 404 "Activity not found"), s))
  ∧ ∀ before a after,
      activities s = before ++ a :: after →
      Activity.name a = activity_name →
      (∀ b, b ∈ before → Activity.name b ≠ activity_name) →
      let signed_up := ∃ p, p ∈ participants s
                          ∧ Participant.activity_id p = Activity.id a
                          ∧ Participant.email p = email in
      let count :=
        Z.of_nat (length (filter (λ p, Participant.activity_id p = Activity.id a)
                                 (participants s))) in
      (signed_up →
         signup_for_activity activity_name email s
         = (inl (HTTPException 400 "Student is already signed up"), s))
      ∧ (¬ signed_up → ¬ count < Activity.max_participants a →
         signup_for_activity activity_name email s
         = (inl (HTTPException 400 "Activity is full"), s))
      ∧ (¬ signed_up → count < Activity.max_participants a →
         ∃ p s',
           signup_for_activity activity_name email s
           = (inr ("Signed up " +:+ email +:+ " for " +:+ activity_name), s')
           ∧ activities s' = activities s
           ∧ participants s' ≡ₚ participants s ++ [p]
           ∧ Participant.activity_id p = Activity.id a
           ∧ Participant.email p = email
           ∧ (Participant.id p ∉ (Participant.id <$> participants s)))
      ∧ (signed_up → Activity.max_participants a ≤ count →
         signup_for_activity activity_name email s
         = (inl (HTTPException 400 "Student is already signed up"), s)).
Proof.
  rewrite signup_for_activity_eq. split.
  - intros Hnone. apply activity_by_name_None in Hnone. by rewrite Hnone.
  - intros before a after Hsplit Hname Hbefore signed_up count.
    rewrite (activity_by_name_first s activity_name before a after) by done.
    assert (signed_up → is_Some (participant_of s (Activity.id a) email)) as Hyes
      by apply participant_of_is_Some.
    assert (¬ signed_up → participant_of s (Activity.id a) email = None) as Hno
      by apply participant_of_None.
    unfold participants_of. fold count. split_and!.
    + intros [p Hp]%Hyes. by rewrite Hp.
    + intros Hn%Hno Hfull. rewrite Hn. case_decide; [done|lia].
    + intros Hn%Hno Hroom. rewrite Hn. case_decide; [lia|].
      eexists (new_row s email (Activity.id a)), _. split_and!; [done..|].
      apply next_rowid_not_in.
    + intros [p Hp]%Hyes _. by rewrite Hp.
Qed.

Lemma signup_checks_in_order_witness :
  let math_club :=
    Activity.mk 8 "Math Club"
      "Solve challenging problems and participate in math competitions"
      "Tuesdays, 3:30 PM - 4:30 PM" 10 in
  let full :=
    run seeded (SignUp "Math Club" <$>
                  ["n1@mergington.edu"; "n2@mergington.edu"; "n3@mergington.edu";
                   "n4@mergington.edu"; "n5@mergington.edu"; "n6@mergington.edu";
                   "n7@mergington.edu"; "n8@mergington.edu"]) in
  signup_for_activity "Knitting" "james@mergington.edu" seeded
  = (inl (HTTPException 404 "Activity not found"), seeded)
  ∧ signup_for_activity "Math Club" "james@mergington.edu" seeded
    = (inl (HTTPException 400 "Student is already signed up"), seeded)
  ∧ signup_for_activity "Math Club" "late@mergington.edu" full
    = (inl (HTTPException 400 "Activity is full"), full)
  ∧ signup_for_activity "Math Club" "james@mergington.edu" full
    = (inl (HTTPException 400 "Student is already signed up"), full)
  ∧ ∃ p s',
      signup_for_activity "Math Club" "new@mergington.edu" seeded
      = (inr "Signed up new@mergington.edu for Math Club", s')
      ∧ participants s' ≡ₚ participants seeded ++ [p]
      ∧ Participant.activity_id p = 8
      ∧ Participant.email p = "new@mergington.edu".
Proof.
  intros math_club full.
  assert (∀ s, activities s = activities seeded →
               activities s = take 7 (activities seeded) ++ math_club
                                :: drop 8 (activities seeded)) as Hsplit
    by (intros s ->; vm_compute; reflexivity).
  assert (∀ b, b ∈ take 7 (activities seeded) → Activity.name b ≠ "Math Club")
    as Hbefore
    by (apply Forall_forall, (bool_decide_unpack _); vm_compute; exact I).
  assert (activities full = activities seeded) as Hfull by apply run_activities.
  split_and!.
  - destruct (signup_checks_in_order seeded "Knitting" "james@mergington.edu")
      as [Hnone _].
    apply Hnone.
    apply Forall_forall, (bool_decide_unpack _). vm_compute. exact I.
  - destruct (signup_checks_in_order seeded "Math Club" "james@mergington.edu")
      as [_ Hfound].
    destruct (Hfound _ math_club _ (Hsplit seeded eq_refl) eq_refl Hbefore)
      as (Hdup & _).
    apply Hdup. exists (Participant.mk 15 8 "james@mergington.edu").
    split; [|split; reflexivity]. vm_compute. do 14 right. left.
  - destruct (signup_checks_in_order full "Math Club" "late@mergington.edu")
      as [_ Hfound].
    destruct (Hfound _ math_club _ (Hsplit full Hfull) eq_refl Hbefore)
      as (_ & Hnoroom & _).
    apply Hnoroom.
    + apply (proj1 (participant_of_None full 8 "late@mergington.edu")).
      vm_compute. reflexivity.
    + vm_compute. intros Hlt. discriminate Hlt.
  - destruct (signup_checks_in_order full "Math Club" "james@mergington.edu")
      as [_ Hfound].
    destruct (Hfound _ math_club _ (Hsplit full Hfull) eq_refl Hbefore)
      as (_ & _ & _ & Hdupfull).
    apply Hdupfull.
    + exists (Participant.mk 15 8 "james@mergington.edu").
      split; [|split; reflexivity]. vm_compute. do 14 right. left.
    + vm_compute. discriminate.
  - destruct (signup_checks_in_order seeded "Math Club" "new@mergington.edu")
      as [_ Hfound].
    destruct (Hfound _ math_club _ (Hsplit seeded eq_refl) eq_refl Hbefore)
      as (_ & _ & Hroom & _).
    destruct Hroom as (p & s' & Hrun & _ & Hrows & Hpa & Hpe & _).
    + apply (proj1 (participant_of_None seeded 8 "new@mergington.edu")).
      vm_compute. reflexivity.
    + vm_compute. reflexivity.
    + exists p, s'. split_and!; assumption.
Defined.



(** ** Unregister *)

(** C4, as far as it holds: unregister fails with 404 "Activity not found"
    when no activity has the name, with 400 "Student is not signed up for
    this activity" when the activity has no row for the email, and otherwise
    deletes one such row, by its key, and succeeds.  When the pair had at most
    one row, as in every state reachable from the seeded one, a second
    unregister right after a successful one fails with the "not signed up"
    error.  The activity is the first row of the activities table with the
    name asked for; the rows of the pair are the participant rows with that
    activity's key and the email. *)
Theorem unregister_checks (s : Store) (activity_name email : string) :
  ((∀ a, a ∈ activities s → Activity.name a ≠ activity_name) →
     unregister_from_activity activity_name email s
     = (inl (HTTPException 404 "Activity not found"), s))
  ∧ ∀ before a after,
      activities s = before ++ a :: after →
      Activity.name a = activity_name →
      (∀ b, b ∈ before → Activity.name b ≠ activity_name) →
      let signed_up := ∃ p, p ∈ participants s
                          ∧ Participant.activity_id p = Activity.id a
                          ∧ Participant.email p = email in
      let rows := filter (λ p, Participant.activity_id p = Activity.id a
                               ∧ Participant.email p = email) (participants s) in
      let s' := snd (unregister_from_activity activity_name email s) in
      (¬ signed_up →
         unregister_from_activity activity_name email s
         = (inl (HTTPException 400 "Student is not signed up for this activity"), s))
      ∧ (signed_up →
         ∃ p, p ∈ participants s
              ∧ Participant.activity_id p = Activity.id a
              ∧ Participant.email p = email
              ∧ unregister_from_activity activity_name email s
                = (inr ("Unregistered " +:+ email +:+ " from " +:+ activity_name),
                   {| activities := activities s;
                      participants :=
                        filter (λ q, Participant.id q ≠ Participant.id p)
                               (participants s) |})
              ∧ (NoDup (Participant.id <$> participants s) →
                 ∀ q, q ∈ participants s' ↔ q ∈ participants s ∧ q ≠ p))
      ∧ (signed_up → (length rows ≤ 1)%nat →
         unregister_from_activity activity_name email s'
         = (inl (HTTPException 400 "Student is not signed up for this activity"),
            s'))
      ∧ (signed_up → (∃ rs, s = run seeded rs) →
         unregister_from_activity activity_name email s'
         = (inl (HTTPException 400 "Student is not signed up for this activity"),
            s')).
Proof.
  split.
  - rewrite unregister_from_activity_eq.
    intros Hnone. apply activity_by_name_None in Hnone. by rewrite Hnone.
  - intros before a after Hsplit Hname Hbefore signed_up rows s'.
    pose proof (activity_by_name_first s activity_name before a after
                  Hsplit Hname Hbefore) as Ha.
    assert (signed_up → (length rows ≤ 1)%nat →
            unregister_from_activity activity_name email s'
            = (inl (HTTPException 400 "Student is not signed up for this activity"),
               s')) as Htwice.
    { subst s'. rewrite (unregister_from_activity_eq s), Ha.
      intros [p Hp]%participant_of_is_Some Hone. rewrite Hp. cbn [snd].
      rewrite unregister_from_activity_eq.
      unfold activity_by_name in *. cbn [activities]. rewrite Ha.
      unfold participant_of at 1.
      by rewrite (rows_of_after_delete s _ _ p Hone Hp). }
    split_and!.
    + rewrite unregister_from_activity_eq, Ha.
      intros Hn%participant_of_None. by rewrite Hn.
    + subst s'. rewrite unregister_from_activity_eq, Ha.
      intros [p Hp]%participant_of_is_Some. rewrite Hp.
      destruct (participant_of_Some _ _ _ _ Hp) as (Hin & Haid & Hemail).
      exists p. split_and!; try done.
      intros Hnd q. by apply delete_by_key.
    + exact Htwice.
    + intros Hsigned [rs Hrs]. apply Htwice; [done|].
      subst rows. rewrite Hrs.
      exact (run_pairs_unique rs seeded seeded_pairs_unique (Activity.id a) email).
Qed.

Lemma unregister_checks_witness :
  let s' := snd (unregister_from_activity "Math Club" "james@mergington.edu" seeded) in
  unregister_from_activity "Knitting" "james@mergington.edu" seeded
  = (inl (HTTPException 404 "Activity not found"), seeded)
  ∧ unregister_from_activity "Math Club" "michael@mergington.edu" seeded
    = (inl (HTTPException 400 "Student is not signed up for this activity"), seeded)
  ∧ (∃ p, p ∈ participants seeded
          ∧ pair_key p = (8, "james@mergington.edu")
          ∧ unregister_from_activity "Math Club" "james@mergington.edu" seeded
            = (inr "Unregistered james@mergington.edu from Math Club",
               {| activities := activities seeded;
                  participants := filter (λ q, Participant.id q ≠ Participant.id p)
                                         (participants seeded) |}))
  ∧ unregister_from_activity "Math Club" "james@mergington.edu" s'
    = (inl (HTTPException 400 "Student is not signed up for this activity"), s').
Proof.
  intros s'.
  set (math_club :=
         Activity.mk 8 "Math Club"
           "Solve challenging problems and participate in math competitions"
           "Tuesdays, 3:30 PM - 4:30 PM" 10).
  assert (activities seeded
          = take 7 (activities seeded) ++ math_club :: drop 8 (activities seeded))
    as Hsplit by (vm_compute; reflexivity).
  assert (∀ b, b ∈ take 7 (activities seeded) → Activity.name b ≠ "Math Club")
    as Hbefore
    by (apply Forall_forall, (bool_decide_unpack _); vm_compute; exact I).
  assert (∃ p, p ∈ participants seeded
               ∧ Participant.activity_id p = Activity.id math_club
               ∧ Participant.email p = "james@mergington.edu") as Hjames.
  { exists (Participant.mk 15 8 "james@mergington.edu").
    split; [|split; reflexivity]. vm_compute. do 14 right. left. }
  split_and!.
  - destruct (unregister_checks seeded "Knitting" "james@mergington.edu")
      as [Hnone _].
    apply Hnone.
    apply Forall_forall, (bool_decide_unpack _). vm_compute. exact I.
  - destruct (unregister_checks seeded "Math Club" "michael@mergington.edu")
      as [_ Hfound].
    destruct (Hfound _ math_club _ Hsplit eq_refl Hbefore) as (Hnot & _).
    apply Hnot.
    apply (proj1 (participant_of_None seeded 8 "michael@mergington.edu")).
    vm_compute. reflexivity.
  - destruct (unregister_checks seeded "Math Club" "james@mergington.edu")
      as [_ Hfound].
    destruct (Hfound _ math_club _ Hsplit eq_refl Hbefore) as (_ & Hdel & _).
    destruct (Hdel Hjames) as (p & Hp & Hpa & Hpe & Hrun & _).
    exists p. split_and!; [exact Hp| |exact Hrun].
    unfold pair_key. by rewrite Hpa, Hpe.
  - destruct (unregister_checks seeded "Math Club" "james@mergington.edu")
      as [_ Hfound].
    destruct (Hfound _ math_club _ Hsplit eq_refl Hbefore) as (_ & _ & Htwice & _).
    apply Htwice; [exact Hjames|]. vm_compute. lia.
Defined.

(** C4 as stated fails where a pair has two rows: [doubled] satisfies every
    constraint of the schema, the first unregister deletes one of the two rows
    of (Chess Club, michael@mergington.edu), and the second unregister finds
    the other and succeeds as well. *)
Lemma unregister_twice_counterexample :
  schema_ok doubled
  ∧ fst (unregister_from_activity "Chess Club" "michael@mergington.edu" doubled)
    = inr "Unregistered michael@mergington.edu from Chess Club"
  ∧ fst (unregister_from_activity "Chess Club" "michael@mergington.edu"
           (snd (unregister_from_activity "Chess Club" "michael@mergington.edu" doubled)))
    ≠ inl (HTTPException 400 "Student is not signed up for this activity").
Proof.
  split_and!.
  - split; apply (bool_decide_unpack _); vm_compute; exact I.
  - vm_compute. reflexivity.
  - vm_compute. discriminate.
Qed.

(** C5: when signup(A, e) succeeds, unregister(A, e) on the resulting store
    succeeds too and gives back the store signup started from; so every
    activity, A included, has the participants it had. *)
Theorem signup_then_unregister (s s' : Store) (activity_name email msg : string) :
  signup_for_activity activity_name email s = (inr msg, s') →
  ∃ msg' s'',
    unregister_from_activity activity_name email s' = (inr msg', s'')
    ∧ (∀ aid, participants_of s'' aid = participants_of s aid)
    ∧ (∀ aid, participant_emails s'' aid = participant_emails s aid)
    ∧ s'' = s.
Proof.
  rewrite signup_for_activity_eq.
  destruct (activity_by_name s activity_name) as [a|] eqn:Ha; [|done].
  destruct (participant_of s (Activity.id a) email) eqn:Hp; [done|].
  case_decide; [done|]. intros [= _ <-].
  rewrite unregister_from_activity_eq.
  unfold activity_by_name in *. cbn [activities]. rewrite Ha.
  unfold participant_of, rows_of in *. cbn [participants].
  apply head_None in Hp.
  rewrite filter_app, Hp, filter_cons_True, filter_nil by done. cbn [head app].
  unfold new_row. cbn [Participant.id].
  rewrite filter_app, filter_next_rowid, filter_cons_False, filter_nil, app_nil_r
    by (intros Hne; by apply Hne).
  rewrite store_eta. by eexists _, _.
Qed.

Lemma signup_then_unregister_witness :
  ∃ msg' s'',
    unregister_from_activity "Chess Club" "new@mergington.edu"
      (snd (signup_for_activity "Chess Club" "new@mergington.edu" seeded))
    = (inr msg', s'')
    ∧ s'' = seeded.
Proof.
  destruct (signup_then_unregister seeded
              (snd (signup_for_activity "Chess Club" "new@mergington.edu" seeded))
              "Chess Club" "new@mergington.edu"
              "Signed up new@mergington.edu for Chess Club")
    as (msg' & s'' & Hun & _ & _ & Hs).
  - vm_compute. reflexivity.
  - exists msg', s''. split; assumption.
Defined.

(** ** Failures and frames *)

(** In a handler that raises, nothing was added, deleted or committed before
    the [raise]: the session is the one the handler was given. *)
Lemma signup_body_raises n e ss ss' err :
  signup_body n e ss = (inl err, ss') → ss' = ss.
Proof.
  cbv beta iota zeta delta [signup_body bind query raise ret db_add_participant db_commit].
  destruct (activity_by_name (current ss) n) as [a|]; [|congruence].
  destruct (participant_of (current ss) (Activity.id a) e); [congruence|].
  case_decide; congruence.
Qed.

Lemma unregister_body_raises n e ss ss' err :
  unregister_body n e ss = (inl err, ss') → ss' = ss.
Proof.
  cbv beta iota zeta delta [unregister_body bind query raise ret db_delete db_commit].
  destruct (activity_by_name (current ss) n) as [a|]; [|congruence].
  destruct (participant_of (current ss) (Activity.id a) e); congruence.
Qed.

Lemma with_session_raises {A} (body : Db A) s err :
  (∀ ss ss', body ss = (inl err, ss') → ss' = ss) →
  fst (with_session body s) = inl err → snd (with_session body s) = s.
Proof.
  unfold with_session. intros Hbody.
  destruct (body {| committed := s; current := s |}) as [r ss'] eqn:Hrun.
  cbn [fst snd]. intros ->. by rewrite (Hbody _ _ Hrun).
Qed.

(** C9: a signup or an unregister that returns an error leaves the store,
    activities and participants alike, as it was; inside the handler the
    session is untouched up to the [raise], and the error is a 404 or a 400. *)
Theorem errors_leave_store (s : Store) (activity_name email : string) (err : exn) :
  (fst (signup_for_activity activity_name email s) = inl err →
     snd (signup_for_activity activity_name email s) = s)
  ∧ (fst (unregister_from_activity activity_name email s) = inl err →
     snd (unregister_from_activity activity_name email s) = s)
  ∧ (∀ ss ss', signup_body activity_name email ss = (inl err, ss') → ss' = ss)
  ∧ (∀ ss ss', unregister_body activity_name email ss = (inl err, ss') → ss' = ss)
  ∧ (fst (signup_for_activity activity_name email s) = inl err
     ∨ fst (unregister_from_activity activity_name email s) = inl err →
     ∃ detail, err = HTTPException 404 detail ∨ err = HTTPException 400 detail).
Proof.
  split_and!.
  - apply with_session_raises. intros ss ss'. apply signup_body_raises.
  - apply with_session_raises. intros ss ss'. apply unregister_body_raises.
  - intros ss ss'. apply signup_body_raises.
  - intros ss ss'. apply unregister_body_raises.
  - rewrite signup_for_activity_eq, unregister_from_activity_eq.
    destruct (activity_by_name s activity_name) as [a|].
    + destruct (participant_of s (Activity.id a) email).
      * intros [[= <-]|[=]]. eauto.
      * case_decide; intros [[= <-]|[= <-]]; eauto.
    + intros [[= <-]|[= <-]]; eauto.
Qed.

Lemma errors_leave_store_witness :
  snd (signup_for_activity "Chess Club" "michael@mergington.edu" seeded) = seeded
  ∧ snd (unregister_from_activity "Knitting" "michael@mergington.edu" seeded) = seeded.
Proof.
  split.
  - apply (errors_leave_store seeded "Chess Club" "michael@mergington.edu"
             (HTTPException 400 "Student is already signed up")).
    vm_compute. reflexivity.
  - apply (errors_leave_store seeded "Knitting" "michael@mergington.edu"
             (HTTPException 404 "Activity not found")).
    vm_compute. reflexivity.
Defined.

(** C8: whatever a handler returns, the activity rows after the call are the
    rows before it, field for field and in the same order; the same holds
    after any sequence of requests. *)
Theorem handlers_keep_activities (s : Store) :
  activities (snd (get_activities s)) = activities s
  ∧ (∀ activity_name email,
       activities (snd (signup_for_activity activity_name email s)) = activities s
       ∧ activities (snd (unregister_from_activity activity_name email s))
         = activities s)
  ∧ ∀ rs, activities (run s rs) = activities s.
Proof.
  split_and!.
  - apply (step_activities s GetActivities).
  - intros n e. split.
    + apply (step_activities s (SignUp n e)).
    + apply (step_activities s (Unregister n e)).
  - intros rs. apply run_activities.
Qed.

(** ** Reachable states *)

(** C1: on a freshly seeded database, after any sequence of requests served
    one at a time, no activity has more participant rows than its
    [max_participants]. *)
Theorem capacity_never_exceeded (rs : list request) (a : Activity.t) :
  a ∈ activities (run seeded rs) →
  Z.of_nat (length (participants_of (run seeded rs) (Activity.id a)))
  ≤ Activity.max_participants a.
Proof.
  apply run_within_capacity.
  - apply seeded_activity_pk.
  - apply seeded_within_capacity.
Qed.

Lemma capacity_never_exceeded_witness :
  let rs := [SignUp "Math Club" "new@mergington.edu";
             Unregister "Math Club" "james@mergington.edu";
             SignUp "Math Club" "other@mergington.edu"] in
  Z.of_nat (length (participants_of (run seeded rs) 8)) ≤ 10.
Proof.
  intros rs.
  apply (capacity_never_exceeded rs
           (Activity.mk 8 "Math Club"
              "Solve challenging problems and participate in math competitions"
              "Tuesdays, 3:30 PM - 4:30 PM" 10)).
  vm_compute. do 7 right. left.
Defined.

(** C2: on a freshly seeded database, after any sequence of requests served
    one at a time, a pair (activity, email) has at most one participant
    row. *)
Theorem one_row_per_pair (rs : list request) (aid : Z) (e : string) :
  (length (rows_of (run seeded rs) aid e) ≤ 1)%nat.
Proof. apply run_pairs_unique, seeded_pairs_unique. Qed.

(** ** Seeding *)

Lemma seed_skips_when_populated s :
  activities s ≠ [] → seed_initial_data s = (inr (), s).
Proof.
  intros Hne. unfold seed_initial_data, with_session, rollback_on_error, seed_body.
  unfold bind at 1. unfold query. cbn [current].
  destruct (activities s) as [|a l]; [done|].
  rewrite decide_True by (cbn [length]; lia). done.
Qed.

(** C6: seeding the empty store succeeds and leaves nine activities with two
    participant rows each (eighteen rows in all); Chess Club is among them,
    with capacity 12 and the emails michael@mergington.edu and
    daniel@mergington.edu, and that is what the listing shows.  On a store
    that has an activity, seeding changes nothing. *)
Theorem seed_initial_data_spec :
  seed_initial_data empty_store = (inr (), seeded)
  ∧ length (activities seeded) = 9%nat
  ∧ length (participants seeded) = 18%nat
  ∧ Activity.name <$> activities seeded
    = ["Chess Club"; "Programming Class"; "Gym Class"; "Soccer Team";
       "Basketball Team"; "Art Club"; "Drama Club"; "Math Club"; "Debate Team"]
  ∧ Forall (λ a, length (participant_emails seeded (Activity.id a)) = 2%nat)
           (activities seeded)
  ∧ (∃ a, a ∈ activities seeded
          ∧ Activity.name a = "Chess Club"
          ∧ Activity.max_participants a = 12
          ∧ participant_emails seeded (Activity.id a)
            = ["michael@mergington.edu"; "daniel@mergington.edu"])
  ∧ (∃ result, get_activities seeded = (inr result, seeded)
          ∧ size result = 9%nat
          ∧ result !! "Chess Club"
            = Some {| d_description := "Learn strategies and compete in chess tournaments";
                      d_schedule := "Fridays, 3:30 PM - 5:00 PM";
                      d_max_participants := 12;
                      d_participants := ["michael@mergington.edu";
                                         "daniel@mergington.edu"] |})
  ∧ ∀ s, activities s ≠ [] → seed_initial_data s = (inr (), s).
Proof.
  split_and!.
  - vm_compute. reflexivity.
  - vm_compute. reflexivity.
  - vm_compute. reflexivity.
  - vm_compute. reflexivity.
  - apply (bool_decide_unpack _). vm_compute. exact I.
  - exists (Activity.mk 1 "Chess Club"
              "Learn strategies and compete in chess tournaments"
              "Fridays, 3:30 PM - 5:00 PM" 12).
    split_and!; [vm_compute; left|reflexivity..].
  - eexists. rewrite get_activities_eq. split_and!; [reflexivity| |].
    + vm_compute. reflexivity.
    + vm_compute. reflexivity.
  - apply seed_skips_when_populated.
Qed.

Lemma seed_initial_data_spec_witness :
  seed_initial_data doubled = (inr (), doubled).
Proof.
  destruct seed_initial_data_spec as (_ & _ & _ & _ & _ & _ & _ & Hskip).
  apply Hskip. vm_compute. discriminate.
Defined.

(** ** Listing *)

Section listing.
Context (s : Store).
Implicit Types (acts : list Activity.t) (m : gmap string ActivityDict).

(** A name no activity carries keeps the entry it had. *)
Lemma activities_dict_lookup_other acts m k :
  k ∉ (Activity.name <$> acts) →
  activities_dict s acts m !! k = m !! k.
Proof.
  revert m. induction acts as [|a acts IH]; intros m Hk; [done|].
  rewrite fmap_cons, not_elem_of_cons in Hk. destruct Hk as [Hne Hk].
  unfold activities_dict in *. cbn [foldl].
  rewrite IH by done. by rewrite lookup_insert_ne.
Qed.

(** With unique names the entry of an activity is its own dictionary. *)
Lemma activities_dict_lookup acts m a :
  NoDup (Activity.name <$> acts) → a ∈ acts →
  activities_dict s acts m !! Activity.name a
  = Some (Activity.to_dict a (Some (participant_emails s (Activity.id a)))).
Proof.
  revert m. induction acts as [|b acts IH]; intros m Hnd Ha;
    [by apply elem_of_nil in Ha|].
  rewrite fmap_cons, NoDup_cons in Hnd. destruct Hnd as [Hb Hnd].
  apply elem_of_cons in Ha as [->|Ha].
  - change (activities_dict s (b :: acts) m)
      with (activities_dict s acts
              (<[Activity.name b :=
                   Activity.to_dict b (Some (participant_emails s (Activity.id b)))]> m)).
    rewrite activities_dict_lookup_other by done. apply lookup_insert_eq.
  - by apply IH.
Qed.

Lemma activities_dict_dom acts m :
  dom (activities_dict s acts m)
  = list_to_set (Activity.name <$> acts) ∪ dom m.
Proof.
  revert m. induction acts as [|a acts IH]; intros m.
  - cbn. by rewrite (left_id_L ∅ (∪)).
  - unfold activities_dict in *. cbn [foldl].
    rewrite IH, dom_insert_L, fmap_cons, list_to_set_cons.
    by rewrite (assoc_L (∪)), (comm_L (∪) (list_to_set _)).
Qed.

Lemma activities_dict_size acts :
  NoDup (Activity.name <$> acts) →
  size (activities_dict s acts ∅) = length acts.
Proof.
  intros Hnd. rewrite <- size_dom, activities_dict_dom, dom_empty_L.
  rewrite (right_id_L ∅ (∪)), size_list_to_set by done.
  apply length_fmap.
Qed.
End listing.

(** C7: listing never fails and leaves the store as it is.  The mapping it
    returns is empty when there is no activity.  Activity names being unique,
    as the schema has them, the mapping has one entry per activity, under its
    name, holding the activity's description, schedule, capacity and the
    emails of the rows that reference it; it has no other entry. *)
Theorem get_activities_spec (s : Store) :
  ∃ result,
    get_activities s = (inr result, s)
    ∧ (activities s = [] → result = ∅)
    ∧ (NoDup (Activity.name <$> activities s) →
       size result = length (activities s)
       ∧ (∀ a, a ∈ activities s →
            result !! Activity.name a
            = Some {| d_description := Activity.description a;
                      d_schedule := Activity.schedule a;
                      d_max_participants := Activity.max_participants a;
                      d_participants :=
                        Participant.email
                          <$> filter (λ p, Participant.activity_id p = Activity.id a)
                                     (participants s) |})
       ∧ (∀ k, is_Some (result !! k) → ∃ a, a ∈ activities s ∧ Activity.name a = k)).
Proof.
  exists (activities_dict s (activities s) ∅). split_and!.
  - apply get_activities_eq.
  - by intros ->.
  - intros Hnd. split_and!.
    + by apply activities_dict_size.
    + intros a Ha. by rewrite activities_dict_lookup.
    + intros k Hk. apply elem_of_dom in Hk.
      rewrite activities_dict_dom, dom_empty_L, (right_id_L ∅ (∪)) in Hk.
      apply elem_of_list_to_set, list_elem_of_fmap in Hk as (a & -> & Ha). eauto.
Qed.

Lemma get_activities_spec_witness :
  ∃ result,
    get_activities seeded = (inr result, seeded)
    ∧ size result = 9%nat.
Proof.
  destruct (get_activities_spec seeded) as (result & Hrun & _ & Hunique).
  exists result. split; [exact Hrun|].
  destruct Hunique as (Hsize & _).
  - apply (bool_decide_unpack _). vm_compute. exact I.
  - rewrite Hsize. vm_compute. reflexivity.
Defined.

(** * Further properties of the code *)

(** ** Seeding and startup *)

Lemma seed_no_activities (ps : list Participant.t) :
  fst (seed_initial_data {| activities := []; participants := ps |}) = inr ()
  ∧ activities (snd (seed_initial_data {| activities := []; participants := ps |}))
    = activities seeded.
Proof. split; vm_compute; reflexivity. Qed.

Lemma seed_returns (s : Store) :
  ∃ s', seed_initial_data s = (inr (), s') ∧ activities s' ≠ [].
Proof.
  destruct (decide (activities s = [])) as [Hnil|Hne].
  - destruct s as [acts ps]. cbn in Hnil. subst acts.
    destruct (seed_no_activities ps) as [Hok Hacts].
    destruct (seed_initial_data _) as [r s']. cbn [fst snd] in *. subst r.
    exists s'. split; [done|]. rewrite Hacts. vm_compute. discriminate.
  - exists s. split; [|done]. by apply seed_skips_when_populated.
Qed.

(** X1: seeding returns normally on every store, whatever the two tables
    hold, so its rollback branch is never taken; the store it leaves has
    activities, and seeding that store again changes nothing. *)
Theorem seed_initial_data_idempotent (s : Store) :
  ∃ s', seed_initial_data s = (inr (), s')
        ∧ activities s' ≠ []
        ∧ seed_initial_data s' = (inr (), s').
Proof.
  destruct (seed_returns s) as (s' & Hrun & Hne).
  exists s'. split_and!; [done..|]. by apply seed_skips_when_populated.
Qed.

(** X2: startup on a database without tables gives the seeded store; startup
    on the database left by any sequence of requests returns normally and
    keeps every row, so a restart neither loses nor repeats a registration;
    and on any database a second startup changes nothing. *)
Theorem startup_event_restart :
  startup_event {| activities_table := None; participants_table := None |}
  = (inr (), seeded)
  ∧ (∀ rs, startup_event (database_of (run seeded rs)) = (inr (), run seeded rs))
  ∧ ∀ db, ∃ s, startup_event db = (inr (), s)
               ∧ startup_event (database_of s) = (inr (), s).
Proof.
  assert (∀ s, init_db (database_of s) = s) as Hopen by by intros [??].
  split_and!.
  - vm_compute. reflexivity.
  - intros rs. unfold startup_event. rewrite Hopen.
    apply seed_skips_when_populated. rewrite run_activities.
    vm_compute. discriminate.
  - intros db. unfold startup_event.
    destruct (seed_returns (init_db db)) as (s & Hrun & Hne).
    exists s. rewrite Hopen. split; [done|]. by apply seed_skips_when_populated.
Qed.

(** ** Invariants kept by every request *)

Lemma step_participant_pk s r :
  NoDup (Participant.id <$> participants s) →
  NoDup (Participant.id <$> participants (step s r)).
Proof.
  intros Hpk. destruct r as [|n e|n e]; unfold step.
  - by rewrite get_activities_eq.
  - rewrite signup_for_activity_eq.
    destruct (activity_by_name s n) as [a|]; [|done].
    destruct (participant_of s (Activity.id a) e); [done|].
    case_decide; [done|]. cbn [snd participants].
    rewrite fmap_app. apply NoDup_app. split_and!; [done| |apply NoDup_singleton].
    intros k Hk ->%list_elem_of_singleton.
    by apply (next_rowid_not_in (Participant.id <$> participants s)).
  - rewrite unregister_from_activity_eq.
    destruct (activity_by_name s n) as [a|]; [|done].
    destruct (participant_of s (Activity.id a) e) as [p|]; [|done].
    cbn [snd participants].
    eapply sublist_NoDup; [exact Hpk|]. apply fmap_sublist, sublist_filter.
Qed.

Lemma step_schema_ok s r : schema_ok s → schema_ok (step s r).
Proof.
  intros [Hid Hname Hpk]. split.
  - by rewrite step_activities.
  - by rewrite step_activities.
  - by apply step_participant_pk.
Qed.

Lemma seeded_schema_ok : schema_ok seeded.
Proof. split; apply (bool_decide_unpack _); vm_compute; exact I. Qed.

Lemma run_schema_ok rs : ∀ s, schema_ok s → schema_ok (run s rs).
Proof.
  induction rs as [|r rs IH]; intros s Hs; [done|].
  unfold run in *. cbn [foldl]. by apply IH, step_schema_ok.
Qed.

(** X3: the requests keep what the schema demands.  From a store with unique
    activity keys, unique activity names and unique participant keys, any
    sequence of requests leads to such a store: a signup writes its row under
    a key not in use, and nothing else adds a row.  The seeded store is one
    of them. *)
Theorem requests_keep_schema :
  schema_ok seeded ∧ ∀ s rs, schema_ok s → schema_ok (run s rs).
Proof. split; [apply seeded_schema_ok|]. intros s rs. apply run_schema_ok. Qed.

Lemma requests_keep_schema_witness :
  schema_ok (run doubled [Unregister "Chess Club" "michael@mergington.edu";
                          SignUp "Art Club" "michael@mergington.edu"]).
Proof.
  destruct requests_keep_schema as [_ Hrun]. apply Hrun.
  split; apply (bool_decide_unpack _); vm_compute; exact I.
Defined.

Lemma step_references_ok s r : references_ok s → references_ok (step s r).
Proof.
  intros Href. destruct r as [|n e|n e]; unfold step.
  - by rewrite get_activities_eq.
  - rewrite signup_for_activity_eq.
    destruct (activity_by_name s n) as [a|] eqn:Ha; [|done].
    destruct (participant_of s (Activity.id a) e); [done|].
    case_decide; [done|]. cbn [snd].
    apply activity_by_name_Some in Ha as [Ha _].
    intros p. cbn [participants activities].
    intros [Hp| ->%list_elem_of_singleton]%elem_of_app; [by apply Href|].
    by exists a.
  - rewrite unregister_from_activity_eq.
    destruct (activity_by_name s n) as [a|]; [|done].
    destruct (participant_of s (Activity.id a) e) as [p|]; [|done]. cbn [snd].
    intros q. cbn [participants activities].
    intros [_ Hq]%list_elem_of_filter. by apply Href.
Qed.

Lemma seeded_references_ok : references_ok seeded.
Proof.
  intros p Hp. revert p Hp. apply Forall_forall.
  apply (Forall_impl
           (λ p, bool_decide (Participant.activity_id p
                              ∈ (Activity.id <$> activities seeded)))).
  - apply (bool_decide_unpack _). vm_compute. exact I.
  - intros p (a & -> & Ha)%bool_decide_unpack%list_elem_of_fmap. by exists a.
Qed.

(** X4: no request leaves a participant row without its activity.  If every
    row references an existing activity, the same holds after any sequence of
    requests; it holds in the seeded store. *)
Theorem requests_keep_references :
  references_ok seeded ∧ ∀ s rs, references_ok s → references_ok (run s rs).
Proof.
  split; [apply seeded_references_ok|].
  intros s rs. revert s. induction rs as [|r rs IH]; intros s Hs; [done|].
  unfold run in *. cbn [foldl]. by apply IH, step_references_ok.
Qed.

Lemma requests_keep_references_witness :
  references_ok (run doubled [SignUp "Art Club" "michael@mergington.edu";
                              Unregister "Chess Club" "michael@mergington.edu";
                              SignUp "Knitting" "michael@mergington.edu"]).
Proof.
  destruct requests_keep_references as [_ Hrun]. apply Hrun.
  intros p Hp. revert p Hp. apply Forall_forall.
  apply (Forall_impl
           (λ p, bool_decide (Participant.activity_id p
                              ∈ (Activity.id <$> activities doubled)))).
  - apply (bool_decide_unpack _). vm_compute. exact I.
  - intros p (a & -> & Ha)%bool_decide_unpack%list_elem_of_fmap. by exists a.
Defined.

(** ** Requests one after the other *)

(** X5: a signup that has just succeeded cannot be repeated: the same request
    on the resulting store fails with 400 "Student is already signed up" and
    leaves that store as it is, whatever room the activity has left. *)
Theorem signup_twice (s s' : Store) (activity_name email msg : string) :
  signup_for_activity activity_name email s = (inr msg, s') →
  signup_for_activity activity_name email s'
  = (inl (HTTPException 400 "Student is already signed up"), s').
Proof.
  rewrite signup_for_activity_eq.
  destruct (activity_by_name s activity_name) as [a|] eqn:Ha; [|done].
  destruct (participant_of s (Activity.id a) email); [done|].
  case_decide; [done|]. intros [= _ <-].
  rewrite signup_for_activity_eq.
  unfold activity_by_name in *. cbn [activities]. rewrite Ha.
  destruct (participant_of_is_Some
              {| activities := activities s;
                 participants := participants s ++ [new_row s email (Activity.id a)] |}
              (Activity.id a) email) as [p ->]; [|done].
  exists (new_row s email (Activity.id a)). cbn [participants].
  split; [|done]. apply elem_of_app. right. by apply list_elem_of_singleton.
Qed.

Lemma signup_twice_witness :
  let s' := snd (signup_for_activity "Chess Club" "new@mergington.edu" seeded) in
  signup_for_activity "Chess Club" "new@mergington.edu" s'
  = (inl (HTTPException 400 "Student is already signed up"), s').
Proof.
  intros s'.
  apply (signup_twice seeded s' "Chess Club" "new@mergington.edu"
           "Signed up new@mergington.edu for Chess Club").
  vm_compute. reflexivity.
Defined.

(** X6: an activity whose [max_participants] is zero or negative takes no
    signup: every request for it fails with a 400 and changes nothing. *)
Theorem no_room_without_capacity (s : Store) (activity_name email : string)
    (a : Activity.t) :
  activity_by_name s activity_name = Some a →
  Activity.max_participants a ≤ 0 →
  ∃ detail,
    signup_for_activity activity_name email s = (inl (HTTPException 400 detail), s).
Proof.
  intros Ha Hmax. rewrite signup_for_activity_eq, Ha.
  destruct (participant_of s (Activity.id a) email); [by eexists|].
  rewrite decide_True by lia. by eexists.
Qed.

Lemma no_room_without_capacity_witness :
  ∃ detail,
    signup_for_activity "Closed" "new@mergington.edu"
      {| activities := [Activity.mk 1 "Closed" "Not offered" "Never" 0];
         participants := [] |}
    = (inl (HTTPException 400 detail),
       {| activities := [Activity.mk 1 "Closed" "Not offered" "Never" 0];
          participants := [] |}).
Proof.
  apply (no_room_without_capacity _ _ _ (Activity.mk 1 "Closed" "Not offered" "Never" 0)).
  - vm_compute. reflexivity.
  - vm_compute. discriminate.
Defined.

(** Deleting by the key of a row of the table removes one row when keys are
    unique. *)
Lemma length_delete_by_key (ps : list Participant.t) (p : Participant.t) :
  NoDup (Participant.id <$> ps) → p ∈ ps →
  (length (filter (λ q, Participant.id q ≠ Participant.id p) ps) + 1
   = length ps)%nat.
Proof.
  induction ps as [|q ps IH]; [by intros _ ?%elem_of_nil|].
  rewrite fmap_cons, NoDup_cons. intros [Hq Hnd] Hin.
  apply elem_of_cons in Hin as [<-|Hin].
  - rewrite filter_cons_False by (intros H; by apply H).
    assert (filter (λ q, Participant.id q ≠ Participant.id p) ps = ps) as ->;
      [|cbn [length]; lia].
    clear IH Hnd. induction ps as [|x ps IH]; [done|].
    rewrite fmap_cons, not_elem_of_cons in Hq. destruct Hq as [Hx Hq].
    rewrite filter_cons_True by congruence. f_equal. by apply IH.
  - rewrite filter_cons_True.
    + cbn [length]. specialize (IH Hnd Hin). lia.
    + intros Heq. destruct Hq. rewrite Heq. by apply list_elem_of_fmap_2.
Qed.

Lemma participants_of_pk s aid :
  NoDup (Participant.id <$> participants s) →
  NoDup (Participant.id <$> participants_of s aid).
Proof.
  intros Hpk. eapply sublist_NoDup; [exact Hpk|].
  apply fmap_sublist, sublist_filter.
Qed.

Lemma filter_ext_elem_of {A} (P Q : A → Prop)
    `{!∀ x, Decision (P x), !∀ x, Decision (Q x)} (l : list A) :
  (∀ x, x ∈ l → P x ↔ Q x) → filter P l = filter Q l.
Proof.
  induction l as [|x l IH]; intros Hext; [done|].
  rewrite !filter_cons, IH by (intros y Hy; apply Hext; by right).
  apply decide_ext, Hext. left.
Qed.

(** The rows of an activity other than the one of the deleted row stay. *)
Lemma participants_of_delete_other s p aid :
  NoDup (Participant.id <$> participants s) → p ∈ participants s →
  Participant.activity_id p ≠ aid →
  filter (λ q, Participant.activity_id q = aid)
         (filter (λ q, Participant.id q ≠ Participant.id p) (participants s))
  = participants_of s aid.
Proof.
  intros Hpk Hp Hne. unfold participants_of. rewrite list_filter_filter.
  apply filter_ext_elem_of. intros x Hx. split; [tauto|].
  intros Hxa. split; [done|]. intros Hid.
  assert (x = p) as -> by by apply (NoDup_fmap_eq Participant.id (participants s)).
  done.
Qed.

(** X7: with unique participant keys, a successful unregister for activity A
    removes one row of A and no row of another activity: A has one participant
    less, every other activity has the rows it had, in the same order. *)
Theorem unregister_removes_one_row (s s' : Store) (activity_name email msg : string) :
  NoDup (Participant.id <$> participants s) →
  unregister_from_activity activity_name email s = (inr msg, s') →
  ∃ a, activity_by_name s activity_name = Some a
       ∧ (length (participants s') + 1 = length (participants s))%nat
       ∧ (length (participants_of s' (Activity.id a)) + 1
          = length (participants_of s (Activity.id a)))%nat
       ∧ ∀ aid, aid ≠ Activity.id a → participants_of s' aid = participants_of s aid.
Proof.
  intros Hpk. rewrite unregister_from_activity_eq.
  destruct (activity_by_name s activity_name) as [a|]; [|done].
  destruct (participant_of s (Activity.id a) email) as [p|] eqn:Hp; [|done].
  intros [= _ <-]. exists a.
  destruct (participant_of_Some _ _ _ _ Hp) as (Hin & Haid & _).
  unfold participants_of at 1 3. cbn [participants]. split_and!; [done| | |].
  - by apply length_delete_by_key.
  - rewrite filter_swap. apply length_delete_by_key.
    + by apply participants_of_pk.
    + apply list_elem_of_filter. by split.
  - intros aid Hne. apply participants_of_delete_other; [done..|congruence].
Qed.

Lemma unregister_removes_one_row_witness :
  ∃ a, activity_by_name seeded "Chess Club" = Some a
       ∧ (length (participants_of
                    (snd (unregister_from_activity "Chess Club"
                            "michael@mergington.edu" seeded))
                    (Activity.id a)) + 1
          = length (participants_of seeded (Activity.id a)))%nat.
Proof.
  destruct (unregister_removes_one_row seeded
              (snd (unregister_from_activity "Chess Club" "michael@mergington.edu" seeded))
              "Chess Club" "michael@mergington.edu"
              "Unregistered michael@mergington.edu from Chess Club")
    as (a & Ha & _ & Hlen & _).
  - apply (bool_decide_unpack _). vm_compute. exact I.
  - vm_compute. reflexivity.
  - exists a. split; assumption.
Defined.



(** ** Filling an activity *)

Lemma not_signed_up s aid e :
  e ∉ participant_emails s aid → participant_of s aid e = None.
Proof.
  intros Hnot. apply participant_of_None. intros (p & Hp & Ha & He).
  apply Hnot. unfold participant_emails, participants_of.
  apply list_elem_of_fmap. exists p. split; [done|].
  by apply list_elem_of_filter.
Qed.

Lemma signed_up s aid e :
  e ∈ participant_emails s aid → is_Some (participant_of s aid e).
Proof.
  unfold participant_emails, participants_of.
  intros (p & -> & [Ha Hp]%list_elem_of_filter)%list_elem_of_fmap.
  apply participant_of_is_Some. by exists p.
Qed.

Lemma participant_emails_signup s aid e :
  participant_emails {| activities := activities s;
                        participants := participants s ++ [new_row s e aid] |} aid
  = participant_emails s aid ++ [e].
Proof.
  unfold participant_emails, participants_of. cbn [participants].
  by rewrite filter_app, filter_cons_True, filter_nil, fmap_app.
Qed.

Lemma signup_step s n e a :
  activity_by_name s n = Some a →
  e ∉ participant_emails s (Activity.id a) →
  Z.of_nat (length (participant_emails s (Activity.id a))) < Activity.max_participants a →
  step s (SignUp n e)
  = {| activities := activities s;
       participants := participants s ++ [new_row s e (Activity.id a)] |}.
Proof.
  intros Ha Hnot Hroom. unfold step. rewrite signup_for_activity_eq, Ha.
  rewrite (not_signed_up _ _ _ Hnot).
  unfold participant_emails in Hroom. rewrite length_fmap in Hroom.
  by rewrite decide_False by lia.
Qed.

(** X9: students who are not signed up yet, asking one after the other for
    an activity that has room for all of them, all get in: the activity's
    participants are then the ones it had together with the newcomers, each
    once; nothing is said of the order in which they are listed.  If that
    fills the activity, every further signup for it fails with a 400. *)
Theorem signups_fill (es : list string) (s : Store) (activity_name : string)
    (a : Activity.t) :
  activity_by_name s activity_name = Some a →
  NoDup es →
  (∀ e, e ∈ es → e ∉ participant_emails s (Activity.id a)) →
  Z.of_nat (length (participant_emails s (Activity.id a)) + length es)
    ≤ Activity.max_participants a →
  let s' := run s (SignUp activity_name <$> es) in
  participant_emails s' (Activity.id a) ≡ₚ participant_emails s (Activity.id a) ++ es
  ∧ (Z.of_nat (length (participant_emails s (Activity.id a)) + length es)
     = Activity.max_participants a →
     ∀ e, ∃ detail,
       signup_for_activity activity_name e s' = (inl (HTTPException 400 detail), s')).
Proof.
  intros Ha Hnd Hnew Hroom s'.
  assert (participant_emails s' (Activity.id a)
          = participant_emails s (Activity.id a) ++ es) as Hemails.
  { subst s'. revert s Ha Hnew Hroom.
    induction es as [|e es IH]; intros s Ha Hnew Hroom.
    - by rewrite app_nil_r.
    - apply NoDup_cons in Hnd as [He Hnd]. cbn [length] in Hroom.
      unfold run. cbn [fmap list_fmap foldl].
      rewrite (signup_step s activity_name e a)
        by first [done | apply Hnew; left | lia].
      fold (run {| activities := activities s;
                   participants := participants s ++ [new_row s e (Activity.id a)] |}
                (SignUp activity_name <$> es)).
      rewrite IH; clear IH.
      + by rewrite participant_emails_signup, <- app_assoc.
      + done.
      + done.
      + intros e' He'. rewrite participant_emails_signup, not_elem_of_app.
        split; [apply Hnew; by right|].
        intros ->%list_elem_of_singleton. done.
      + rewrite participant_emails_signup, length_app. cbn [length]. lia. }
  split; [by rewrite Hemails|]. intros Hfull e.
  assert (activity_by_name s' activity_name = Some a) as Ha'.
  { unfold activity_by_name, s'. by rewrite run_activities. }
  rewrite signup_for_activity_eq, Ha'.
  destruct (participant_of s' (Activity.id a) e); [by eexists|].
  rewrite decide_True; [by eexists|].
  unfold participant_emails in Hemails.
  apply (f_equal length) in Hemails. rewrite length_app, !length_fmap in Hemails.
  unfold participant_emails in Hfull. rewrite length_fmap in Hfull. lia.
Qed.

Lemma signups_fill_witness :
  let mathletes := ["n1@mergington.edu"; "n2@mergington.edu"; "n3@mergington.edu";
                    "n4@mergington.edu"; "n5@mergington.edu"; "n6@mergington.edu";
                    "n7@mergington.edu"; "n8@mergington.edu"] in
  let s' := run seeded (SignUp "Math Club" <$> mathletes) in
  participant_emails s' 8
  ≡ₚ ["james@mergington.edu"; "benjamin@mergington.edu"] ++ mathletes
  ∧ ∃ detail,
      signup_for_activity "Math Club" "late@mergington.edu" s'
      = (inl (HTTPException 400 detail), s').
Proof.
  intros mathletes s'.
  destruct (signups_fill mathletes seeded "Math Club"
              (Activity.mk 8 "Math Club"
                 "Solve challenging problems and participate in math competitions"
                 "Tuesdays, 3:30 PM - 4:30 PM" 10)) as [Hemails Hfull].
  - vm_compute. reflexivity.
  - apply (bool_decide_unpack _). vm_compute. exact I.
  - apply Forall_forall. apply (bool_decide_unpack _). vm_compute. exact I.
  - vm_compute. discriminate.
  - split; [exact Hemails|]. apply Hfull. vm_compute. reflexivity.
Defined.

(** ** What the listing shows after a request *)

(** The listing of a store whose participants changed for one activity only
    is the earlier listing with that activity's entry replaced. *)
Lemma activities_dict_update (s s' : Store) (acts : list Activity.t) (a : Activity.t) :
  NoDup (Activity.name <$> acts) → NoDup (Activity.id <$> acts) → a ∈ acts →
  (∀ aid, aid ≠ Activity.id a → participants_of s' aid = participants_of s aid) →
  activities_dict s' acts ∅
  = <[Activity.name a :=
        Activity.to_dict a (Some (participant_emails s' (Activity.id a)))]>
      (activities_dict s acts ∅).
Proof.
  intros Hnames Hids Ha Hother. apply map_eq. intros k.
  destruct (decide (Activity.name a = k)) as [<-|Hk].
  - by rewrite lookup_insert_eq, activities_dict_lookup.
  - rewrite lookup_insert_ne by done.
    destruct (decide (k ∈ Activity.name <$> acts)) as [Hin|Hout].
    + apply list_elem_of_fmap in Hin as (b & -> & Hb).
      rewrite !activities_dict_lookup by done.
      assert (Activity.id b ≠ Activity.id a) as Hne.
      { intros Heq. destruct Hk. f_equal.
        by apply (NoDup_fmap_eq Activity.id acts). }
      unfold participant_emails. by rewrite Hother.
    + by rewrite !activities_dict_lookup_other.
Qed.

(** X10: with unique activity keys and names, the listing after a successful
    signup is the listing before it with one entry replaced: under the name
    asked for, the same activity with the new email added to its participants
    (the emails it had and the new one, each once; nothing is said of their
    order).  Every other entry is as it was. *)
Theorem listing_after_signup (s s' : Store) (activity_name email msg : string) :
  NoDup (Activity.id <$> activities s) →
  NoDup (Activity.name <$> activities s) →
  signup_for_activity activity_name email s = (inr msg, s') →
  ∃ a m l,
    activity_by_name s activity_name = Some a
    ∧ get_activities s = (inr m, s)
    ∧ get_activities s'
      = (inr (<[activity_name := Activity.to_dict a (Some l)]> m), s')
    ∧ l ≡ₚ participant_emails s (Activity.id a) ++ [email].
Proof.
  intros Hids Hnames. rewrite signup_for_activity_eq.
  destruct (activity_by_name s activity_name) as [a|] eqn:Ha; [|done].
  destruct (participant_of s (Activity.id a) email); [done|].
  case_decide; [done|]. intros [= _ <-].
  apply activity_by_name_Some in Ha as [Ha <-].
  exists a, (activities_dict s (activities s) ∅),
    (participant_emails s (Activity.id a) ++ [email]).
  rewrite !get_activities_eq. cbn [activities]. split_and!; [done..| |done].
  f_equal. f_equal. rewrite <- participant_emails_signup.
  apply activities_dict_update; [done..|].
  intros aid Hne. unfold participants_of. cbn [participants].
  rewrite filter_app, filter_cons_False, filter_nil, app_nil_r; [done|].
  cbn. congruence.
Qed.

Lemma listing_after_signup_witness :
  ∃ m l,
    fst (get_activities seeded) = inr m
    ∧ fst (get_activities
             (snd (signup_for_activity "Chess Club" "new@mergington.edu" seeded)))
      = inr (<["Chess Club" :=
                 {| d_description := "Learn strategies and compete in chess tournaments";
                    d_schedule := "Fridays, 3:30 PM - 5:00 PM";
                    d_max_participants := 12;
                    d_participants := l |}]> m)
    ∧ l ≡ₚ ["michael@mergington.edu"; "daniel@mergington.edu";
            "new@mergington.edu"].
Proof.
  destruct (listing_after_signup seeded
              (snd (signup_for_activity "Chess Club" "new@mergington.edu" seeded))
              "Chess Club" "new@mergington.edu"
              "Signed up new@mergington.edu for Chess Club")
    as (a & m & l & Ha & Hm & Hm' & Hl).
  - apply (bool_decide_unpack _). vm_compute. exact I.
  - apply (bool_decide_unpack _). vm_compute. exact I.
  - vm_compute. reflexivity.
  - exists m, l. rewrite Hm, Hm'.
    vm_compute in Ha. injection Ha as <-. split_and!; [reflexivity..|exact Hl].
Defined.

Lemma fmap_filter_email (e : string) (l : list Participant.t) :
  Participant.email <$> filter (λ q, Participant.email q ≠ e) l
  = filter (λ x, x ≠ e) (Participant.email <$> l).
Proof.
  induction l as [|q l IH]; [done|].
  rewrite fmap_cons, !filter_cons. case_decide; [|done].
  by rewrite fmap_cons, IH.
Qed.

(** X11: with the schema's uniqueness and at most one row per (activity,
    email) pair, the listing after a successful unregister is the listing
    before it with one entry replaced: under the name asked for, the same
    activity without the email among its participants, the others in the
    order they had.  Every other entry is as it was. *)
Theorem listing_after_unregister (s s' : Store) (activity_name email msg : string) :
  schema_ok s → pairs_unique s →
  unregister_from_activity activity_name email s = (inr msg, s') →
  ∃ a m,
    activity_by_name s activity_name = Some a
    ∧ get_activities s = (inr m, s)
    ∧ get_activities s'
      = (inr (<[activity_name :=
                  Activity.to_dict a
                    (Some (filter (λ x, x ≠ email)
                                  (participant_emails s (Activity.id a))))]> m),
         s').
Proof.
  intros [Hids Hnames Hpk] Hpairs. rewrite unregister_from_activity_eq.
  destruct (activity_by_name s activity_name) as [a|] eqn:Ha; [|done].
  destruct (participant_of s (Activity.id a) email) as [p|] eqn:Hp; [|done].
  intros [= _ <-].
  apply activity_by_name_Some in Ha as [Ha <-].
  destruct (participant_of_Some _ _ _ _ Hp) as (Hin & Haid & Hemail).
  exists a, (activities_dict s (activities s) ∅).
  rewrite !get_activities_eq. cbn [activities]. split_and!; [done..|].
  f_equal. f_equal.
  rewrite (activities_dict_update s _ (activities s) a); [|done..|].
  - do 3 f_equal. unfold participant_emails, participants_of at 1.
    cbn [participants]. rewrite filter_swap, <- fmap_filter_email. f_equal.
    apply filter_ext_elem_of. intros q [Hqa Hq]%list_elem_of_filter. split.
    + intros Hne Heq. specialize (Hpairs (Activity.id a) email).
      unfold participant_of in Hp. unfold rows_of in *.
      assert (q ∈ filter (λ p, Participant.activity_id p = Activity.id a
                               ∧ Participant.email p = email) (participants s))
        as Hrow by by apply list_elem_of_filter.
      destruct (filter _ (participants s)) as [|p' [|p'' rest]];
        [done| |simpl in Hpairs; lia].
      injection Hp as ->. apply list_elem_of_singleton in Hrow. by subst q.
    + intros Hne Heq. apply Hne.
      assert (q = p) as -> by by apply (NoDup_fmap_eq Participant.id (participants s)).
      done.
  - intros aid Hne. unfold participants_of at 1. cbn [participants].
    apply participants_of_delete_other; [done..|congruence].
Qed.

Lemma listing_after_unregister_witness :
  ∃ m,
    fst (get_activities seeded) = inr m
    ∧ fst (get_activities
             (snd (unregister_from_activity "Chess Club" "michael@mergington.edu" seeded)))
      = inr (<["Chess Club" :=
                 {| d_description := "Learn strategies and compete in chess tournaments";
                    d_schedule := "Fridays, 3:30 PM - 5:00 PM";
                    d_max_participants := 12;
                    d_participants := ["daniel@mergington.edu"] |}]> m).
Proof.
  destruct (listing_after_unregister seeded
              (snd (unregister_from_activity "Chess Club" "michael@mergington.edu" seeded))
              "Chess Club" "michael@mergington.edu"
              "Unregistered michael@mergington.edu from Chess Club")
    as (a & m & Ha & Hm & Hm').
  - apply seeded_schema_ok.
  - apply seeded_pairs_unique.
  - vm_compute. reflexivity.
  - exists m. rewrite Hm, Hm'. split; [done|].
    vm_compute in Ha. injection Ha as <-. reflexivity.
Defined.

(** Where no pair has two rows, no activity lists an email twice. *)
Lemma pairs_unique_emails s aid :
  pairs_unique s → NoDup (participant_emails s aid).
Proof.
  unfold pairs_unique, rows_of, participant_emails, participants_of.
  induction (participants s) as [|q l IH]; intros Hpairs; [constructor|].
  assert (NoDup (Participant.email <$> filter (λ p, Participant.activity_id p = aid) l))
    as Hl.
  { apply IH. intros aid' e. specialize (Hpairs aid' e).
    rewrite filter_cons in Hpairs. case_decide; cbn [length] in Hpairs; lia. }
  rewrite filter_cons. case_decide as Hq; [|done].
  rewrite fmap_cons. apply NoDup_cons. split; [|done].
  intros (p & Hpe & [Hpa Hp]%list_elem_of_filter)%list_elem_of_fmap.
  specialize (Hpairs aid (Participant.email q)).
  rewrite filter_cons_True in Hpairs by done. cbn [length] in Hpairs.
  assert (p ∈ filter (λ p, Participant.activity_id p = aid
                           ∧ Participant.email p = Participant.email q) l) as Hin
    by by apply list_elem_of_filter.
  destruct (filter (λ p, Participant.activity_id p = aid
                         ∧ Participant.email p = Participant.email q) l);
    [by apply elem_of_nil in Hin|].
  cbn [length] in Hpairs. lia.
Qed.

(** X12: on a freshly seeded database, after any sequence of requests, the
    listing has nine entries, and each entry carries the description, the
    schedule and the capacity of a seeded activity of that name, lists no
    email twice, and lists no more emails than the capacity. *)
Theorem listing_of_reachable (rs : list request) :
  ∃ m,
    get_activities (run seeded rs) = (inr m, run seeded rs)
    ∧ size m = 9%nat
    ∧ ∀ k d, m !! k = Some d →
        NoDup (d_participants d)
        ∧ Z.of_nat (length (d_participants d)) ≤ d_max_participants d
        ∧ ∃ a, a ∈ activities seeded
               ∧ Activity.name a = k
               ∧ d_description d = Activity.description a
               ∧ d_schedule d = Activity.schedule a
               ∧ d_max_participants d = Activity.max_participants a.
Proof.
  set (s := run seeded rs).
  assert (activities s = activities seeded) as Hacts by apply run_activities.
  destruct seeded_schema_ok as [Hids Hnames _].
  exists (activities_dict s (activities s) ∅). split_and!.
  - apply get_activities_eq.
  - rewrite activities_dict_size.
    + rewrite Hacts. vm_compute. reflexivity.
    + rewrite Hacts. exact Hnames.
  - intros k d Hd.
    assert (k ∈ Activity.name <$> activities s) as Hk.
    { destruct (decide (k ∈ Activity.name <$> activities s)) as [|Hout]; [done|].
      rewrite activities_dict_lookup_other in Hd; [|exact Hout].
      rewrite lookup_empty in Hd. discriminate. }
    apply list_elem_of_fmap in Hk as (a & -> & Ha).
    rewrite activities_dict_lookup in Hd; [|rewrite Hacts; exact Hnames|exact Ha].
    injection Hd as <-.
    cbn [Activity.to_dict d_participants d_max_participants d_description d_schedule].
    split_and!.
    + apply pairs_unique_emails, run_pairs_unique, seeded_pairs_unique.
    + unfold participant_emails. rewrite length_fmap.
      apply (run_within_capacity rs seeded seeded_activity_pk seeded_within_capacity).
      rewrite run_activities, <- Hacts. exact Ha.
    + exists a. rewrite <- Hacts. split_and!; [exact Ha|reflexivity..].
Qed.

Lemma listing_of_reachable_witness :
  ∃ m,
    get_activities (run seeded [SignUp "Art Club" "new@mergington.edu"])
    = (inr m, run seeded [SignUp "Art Club" "new@mergington.edu"])
    ∧ size m = 9%nat.
Proof.
  destruct (listing_of_reachable [SignUp "Art Club" "new@mergington.edu"])
    as (m & Hm & Hsize & _).
  exists m. split; assumption.
Defined.

(** ** Requests for one activity do not look at the others *)

Lemma rows_of_participants_of s aid e :
  rows_of s aid e = filter (λ p, Participant.email p = e) (participants_of s aid).
Proof.
  unfold rows_of, participants_of. rewrite list_filter_filter.
  apply list_filter_iff. tauto.
Qed.

(** X13: the response to a signup or an unregister depends on the activities
    and on the rows of the activity asked for, and on nothing else: two stores
    with the same activities and the same rows for that activity answer the
    request alike, whatever rows they hold for other activities. *)
Theorem responses_are_local (s1 s2 : Store) (activity_name email : string) :
  activities s1 = activities s2 →
  (∀ a, activity_by_name s1 activity_name = Some a →
        participants_of s1 (Activity.id a) = participants_of s2 (Activity.id a)) →
  fst (signup_for_activity activity_name email s1)
  = fst (signup_for_activity activity_name email s2)
  ∧ fst (unregister_from_activity activity_name email s1)
    = fst (unregister_from_activity activity_name email s2).
Proof.
  intros Hacts Hrows.
  rewrite !signup_for_activity_eq, !unregister_from_activity_eq.
  assert (activity_by_name s2 activity_name = activity_by_name s1 activity_name) as ->
    by (unfold activity_by_name; by rewrite Hacts).
  destruct (activity_by_name s1 activity_name) as [a|]; [|done].
  specialize (Hrows a eq_refl).
  assert (participant_of s2 (Activity.id a) email
          = participant_of s1 (Activity.id a) email) as ->
    by (unfold participant_of; by rewrite !rows_of_participants_of, Hrows).
  rewrite <- Hrows.
  destruct (participant_of s1 (Activity.id a) email); [done|].
  split; [|done]. by case_decide.
Qed.

Lemma responses_are_local_witness :
  fst (signup_for_activity "Chess Club" "emma@mergington.edu" seeded)
  = fst (signup_for_activity "Chess Club" "emma@mergington.edu"
           (snd (unregister_from_activity "Programming Class"
                   "emma@mergington.edu" seeded))).
Proof.
  apply (responses_are_local seeded
           (snd (unregister_from_activity "Programming Class"
                   "emma@mergington.edu" seeded))
           "Chess Club" "emma@mergington.edu").
  - vm_compute. reflexivity.
  - intros a Ha. vm_compute in Ha. injection Ha as <-. vm_compute. reflexivity.
Defined.
